(** * kube-svc-watch: classification, termination worker, notifier, collector

    A shallow embedding of [main.go].  Global flags become an explicit
    [Flags] record, the output of the process (log lines, Slack posts) is an
    explicit [Out] value that is threaded through the code, and the external
    collaborators (control-plane client, Slack API, configuration loaders)
    are records of functions handed to the code that calls them. *)

From stdpp Require Import gmap strings list fin_maps.

(** String literals; [+:+] is string append, ["\n"] is [newline]. *)
Local Open Scope string_scope.
Local Open Scope list_scope.
Local Open Scope nat_scope.

Definition newline : string := String (Ascii.ascii_of_nat 10) EmptyString.

(** ** Constants of [main.go] (lines 20-25) *)

Definition awsLbInternal : string :=
  "service.beta.kubernetes.io/aws-load-balancer-internal".
Definition awsLbInternalValue : string := "0.0.0.0/0".
Definition gcpLbInternal : string := "cloud.google.com/load-balancer-type".
Definition gcpLbInternalValue : string := "internal".

(** ** The part of [v1.Service] the program reads *)

(** [v1.ServiceType] is a string type in the API package; the program compares
    it with [v1.ServiceTypeLoadBalancer] and prints it with [string(...)]. *)
Definition ServiceType : Type := string.
Definition ServiceTypeClusterIP : ServiceType := "ClusterIP".
Definition ServiceTypeNodePort : ServiceType := "NodePort".
Definition ServiceTypeLoadBalancer : ServiceType := "LoadBalancer".

Record ServiceSpec := { Type_ : ServiceType }.

Record Service := {
  Namespace : string;
  Name : string;
  UID : string;
  Annotations : gmap string string;
  Spec : ServiceSpec
}.

(** Go's [m[k]] on a [map[string]string]: the zero value when [k] is absent
    (also on a nil map). *)
Definition index (m : gmap string string) (k : string) : string :=
  default "" (m !! k).

(** ** Flags (lines 27-34) *)

Record Flags := {
  kubeconfig : string;
  listenAddr : string;
  terminate : bool;
  slackToken : string;
  slackChan : string;
  provider : string
}.

(** ** [isInternal] (lines 74-82) *)

Definition isInternal (provider : string) (svc : Service) : bool :=
  if String.eqb provider "aws" then
    negb (String.eqb (Type_ (Spec svc)) ServiceTypeLoadBalancer)
    || String.eqb (index (Annotations svc) awsLbInternal) awsLbInternalValue
  else
    negb (String.eqb (Type_ (Spec svc)) ServiceTypeLoadBalancer)
    || String.eqb (index (Annotations svc) gcpLbInternal) gcpLbInternalValue.

(** ** Errors *)

(** Modelled from the spec: the [error] values of the collaborators, whose
    types are missing.  The control plane answers a delete with success, a
    failed precondition or a transient error; [ErrorString] stands for any
    other error value (configuration loading, Slack); [ErrRequeue] is
    [cache.ErrRequeue], the sentinel the pop callback wraps a delete error in
    (line 115). *)
Inductive error :=
| PreconditionFailed (msg : string)
| TransientError (msg : string)
| ErrorString (msg : string)
| ErrRequeue (Err : error).

(** [err.Error()] *)
Fixpoint Error (e : error) : string :=
  match e with
  | PreconditionFailed msg => msg
  | TransientError msg => msg
  | ErrorString msg => msg
  | ErrRequeue e' => Error e'
  end.

(** ** Process output: the log and the messages posted to Slack *)

Record SlackPost := {
  postToken : string;
  postChannel : string;
  postText : string
}.

Record Out := {
  logs : list string;
  posts : list SlackPost
}.

(** [log.Printf] with the format already expanded. *)
Definition Printf (line : string) (o : Out) : Out :=
  {| logs := logs o ++ [line]; posts := posts o |}.

(** ** Control-plane client: [client.Core().Services(ns).Delete(name, &opts)] *)

Record Preconditions := { PreconditionsUID : string }.
Record DeleteOptions := { DeletePreconditions : option Preconditions }.

Record Client (S : Type) := {
  ServicesDelete : S -> string -> string -> DeleteOptions -> S * option error
}.
Arguments ServicesDelete {S} _ _ _ _ _.

(** ** Change queue

    [cache.FIFO] and [cache.MetaNamespaceKeyFunc] belong to client-go's
    tools/cache package; [main.go] only holds the calls [cache.NewFIFO],
    [fifo.Pop] and [cache.ErrRequeue]. *)

Inductive Action := Added | Updated | Deleted.

(** Modelled from the spec: the entry of [cache.FIFO], which is missing; a
    resource key plus the action that produced it and the resource payload at
    the time of enqueue.  The key is computed from the payload. *)
Record Entry := { action : Action; resource : Service }.

Abbreviation Key := (string * string)%type.

(** Modelled from the spec: [cache.MetaNamespaceKeyFunc], which is missing;
    the key of a resource is its namespace and name. *)
Definition MetaNamespaceKeyFunc (svc : Service) : Key :=
  (Namespace svc, Name svc).

Definition entryKey (e : Entry) : Key := MetaNamespaceKeyFunc (resource e).

Abbreviation FIFO := (list Entry).

Definition NewFIFO : FIFO := [].

(** The entries of the queue that are pending for a key. *)
Definition pending (k : Key) (q : FIFO) : list Entry :=
  filter (fun e => entryKey e = k) q.

(** Modelled from the spec: [push] of [cache.FIFO], which is missing; it
    enqueues, and a new event for an already-queued key replaces the pending
    entry rather than appending a duplicate. *)
Fixpoint push (e : Entry) (q : FIFO) : FIFO :=
  match q with
  | [] => [e]
  | e' :: q' =>
      if bool_decide (entryKey e' = entryKey e) then e :: q'
      else e' :: push e q'
  end.

(** Modelled from the spec: [pop] of [cache.FIFO], which is missing; it
    blocks ([None]) until an entry is available, then removes and returns
    it. *)
Definition pop (q : FIFO) : option (Entry * FIFO) :=
  match q with
  | [] => None
  | e :: q' => Some (e, q')
  end.

(** Modelled from the spec: [requeue] of [cache.FIFO], which is missing; it
    re-inserts the most recent known entry for the key: the pending one when
    a newer event has arrived, the popped one otherwise.  [NewFIFO] receives
    a key function only (line 85), so this queue has no mirror to consult. *)
Definition requeue (e : Entry) (q : FIFO) : FIFO :=
  match pending (entryKey e) q with
  | [] => q ++ [e]
  | _ :: _ => q
  end.

(** Modelled from the spec: [Pop] of [cache.FIFO], which is missing, as
    [main.go] calls it: the callback runs on the payload of the popped entry;
    the requeue sentinel [ErrRequeue{err}] requeues the entry and [Pop]
    returns the wrapped [err]; any other result is returned as is. *)
Definition Pop {S : Type} (process : Service -> S -> S * option error)
    (q : FIFO) (s : S) : option (FIFO * S * Service * option error) :=
  match pop q with
  | None => None
  | Some (e, q') =>
      let '(s', err) := process (resource e) s in
      match err with
      | Some (ErrRequeue inner) => Some (requeue e q', s', resource e, Some inner)
      | _ => Some (q', s', resource e, err)
      end
  end.

(** The entries popped by at most [fuel] successive pops, up to the pop
    that blocks. *)
Fixpoint drain (fuel : nat) (q : FIFO) : list Entry :=
  match fuel with
  | O => []
  | S n =>
      match pop q with
      | None => []
      | Some (e, q') => e :: drain n q'
      end
  end.

(** ** [terminator] (lines 84-130) *)

Record World (S : Type) := {
  fifo : FIFO;
  api : S;
  out : Out
}.
Arguments fifo {S} _.
Arguments api {S} _.
Arguments out {S} _.

(** The callback handed to [fifo.Pop] (lines 94-118). *)
Definition process {S : Type} (client : Client S) (provider : string)
    (svc : Service) (s : S) : S * option error :=
  if isInternal provider svc then (s, None)
  else
    let opts :=
      {| DeletePreconditions := Some {| PreconditionsUID := UID svc |} |} in
    let '(s', err) := ServicesDelete client s (Namespace svc) (Name svc) opts in
    match err with
    | Some e => (s', Some (ErrRequeue e))
    | None => (s', None)
    end.

(** One turn of the [for] loop (lines 93-129); [None] when [Pop] blocks. *)
Definition terminator_iter {S : Type} (client : Client S) (provider : string)
    (notify : Service -> Out -> Out) (w : World S) : option (World S) :=
  match Pop (process client provider) (fifo w) (api w) with
  | None => None
  | Some (q, s, svc, err) =>
      if negb (isInternal provider svc) then
        match err with
        | Some e =>
            Some {| fifo := q; api := s;
                    out := Printf ("Error deleting " +:+ Namespace svc +:+ "/"
                                   +:+ Name svc +:+ ": " +:+ Error e
                                   +:+ newline)
                             (out w) |}
        | None =>
            Some {| fifo := q; api := s;
                    out := notify svc
                             (Printf ("Deleted external service "
                                      +:+ Namespace svc +:+ "/" +:+ Name svc
                                      +:+ newline)
                                (out w)) |}
        end
      else Some {| fifo := q; api := s; out := out w |}
  end.

(** The reflector started at lines 86-91 feeds the queue while the loop runs:
    a schedule interleaves its events with turns of the loop. *)
Inductive Tick :=
| Ingest (a : Action) (svc : Service)
| Turn.

Fixpoint terminator {S : Type} (client : Client S) (provider : string)
    (notify : Service -> Out -> Out) (schedule : list Tick) (w : World S)
    : World S :=
  match schedule with
  | [] => w
  | Ingest a svc :: rest =>
      terminator client provider notify rest
        {| fifo := push {| action := a; resource := svc |} (fifo w);
           api := api w; out := out w |}
  | Turn :: rest =>
      match terminator_iter client provider notify w with
      | None => terminator client provider notify rest w
      | Some w' => terminator client provider notify rest w'
      end
  end.

(** ** [notifySlack] (lines 132-145)

    [slackApi.PostMessage(channel, msg, params)] answers with a channel id
    and a timestamp, or with an error; the answer is the collaborator's. *)

Record SlackApi := {
  PostMessage : string -> string -> string -> (string * string) + error
}.

Definition notifySlack (flags : Flags) (slack : SlackApi) (svc : Service)
    (o : Out) : Out :=
  if String.eqb (slackToken flags) "" then o
  else
    let msg :=
      "Cool story bro: kube-svc-watch just deleted a public Service ("
      +:+ Namespace svc +:+ "/" +:+ Name svc +:+ ")! kthxbye." in
    let posted :=
      {| logs := logs o;
         posts := posts o ++ [{| postToken := slackToken flags;
                                 postChannel := slackChan flags;
                                 postText := msg |}] |} in
    match PostMessage slack (slackToken flags) (slackChan flags) msg with
    | inr err =>
        Printf ("Error posting to slack " +:+ slackChan flags +:+ ": "
                +:+ Error err +:+ newline) posted
    | inl (chanId, timestamp) =>
        Printf ("Sent notification to slack " +:+ slackChan flags +:+ " ("
                +:+ chanId +:+ ") at " +:+ timestamp +:+ newline) posted
    end.

(** ** Metrics collector (lines 36-72) *)

Record Desc := {
  fqName : string;
  help : string;
  variableLabels : list string
}.

Definition svcInfo : Desc :=
  {| fqName := "kube_service_info";
     help := "Information about cluster services.";
     variableLabels :=
       ["kubernetes_namespace"; "kubernetes_name"; "type"; "internal"] |}.

Inductive ValueType := CounterValue | GaugeValue | UntypedValue.

Record Metric := {
  desc : Desc;
  valueType : ValueType;
  value : Z;
  labelValues : list string
}.

(** [prometheus.MustNewConstMetric]: panics ([None]) when the number of label
    values differs from the number of variable labels of the descriptor. *)
Definition MustNewConstMetric (d : Desc) (vt : ValueType) (v : Z)
    (lvs : list string) : option Metric :=
  if Nat.eqb (length lvs) (length (variableLabels d))
  then Some {| desc := d; valueType := vt; value := v; labelValues := lvs |}
  else None.

(** [fmt.Sprintf("%v", b)] on a bool. *)
Definition Sprintf_v (b : bool) : string := if b then "true" else "false".

(** Modelled from the spec: [cache.Store], which is missing; the mirror
    store is a mapping from resource key to the latest known resource, and
    [List] is the listing of all currently stored resources, in an order the
    store does not specify. *)
Record svcCollector := { store : gmap Key Service }.

Definition List (st : gmap Key Service) : list Service :=
  (map_to_list st).*2.

(** A channel the collector sends on is the list of values sent so far; a
    panic is [None]. *)
Definition collectSvc (provider : string) (c : svcCollector)
    (ch : list Metric) (svc : Service) : option (list Metric) :=
  match MustNewConstMetric svcInfo GaugeValue 1
          [Namespace svc; Name svc; Type_ (Spec svc);
           Sprintf_v (isInternal provider svc)] with
  | Some m => Some (ch ++ [m])
  | None => None
  end.

Definition Collect (provider : string) (c : svcCollector) (ch : list Metric)
    : option (list Metric) :=
  foldl (fun acc item =>
           match acc with
           | Some ch' => collectSvc provider c ch' item
           | None => None
           end)
        (Some ch) (List (store c)).

(** ** [main] (lines 147-194)

    The loaders of the control-plane configuration and the HTTP server are
    collaborators; [main] is the sequence of its steps up to the way the
    process ends. *)

Record Env (Config Clientset : Type) := {
  InClusterConfig : Config + error;
  BuildConfigFromFlags : string -> string -> Config + error;
  NewForConfig : Config -> Clientset + error;
  ListenAndServe : string -> error
}.
Arguments InClusterConfig {Config Clientset} _.
Arguments BuildConfigFromFlags {Config Clientset} _ _ _.
Arguments NewForConfig {Config Clientset} _ _.
Arguments ListenAndServe {Config Clientset} _ _.

Inductive Step :=
| LogPrintf (line : string)
| GoTerminator
| RunStoreReflector
| MustRegister
| HandleMetrics
| Serve (addr : string).

Inductive Exit :=
| Panic (msg : string)
| LogFatal (msg : string).

Definition main {Config Clientset : Type} (flags : Flags)
    (env : Env Config Clientset) : list Step * Exit :=
  let config :=
    if String.eqb (kubeconfig flags) "" then InClusterConfig env
    else BuildConfigFromFlags env "" (kubeconfig flags) in
  match config with
  | inr err => ([], Panic (Error err))
  | inl config =>
      match NewForConfig env config with
      | inr err => ([], Panic (Error err))
      | inl clientset =>
          let t1 :=
            if terminate flags
            then [LogPrintf ("Termination mode engaged" +:+ newline);
                  GoTerminator]
            else [] in
          let chosen :=
            if String.eqb (provider flags) "aws"
            then inl (LogPrintf ("Using AWS provider" +:+ newline))
            else if String.eqb (provider flags) "gcp"
            then inl (LogPrintf ("Using GCP provider" +:+ newline))
            else inr "unknown provider specified" in
          match chosen with
          | inr msg => (t1, Panic msg)
          | inl banner =>
              (t1 ++ [banner; RunStoreReflector; MustRegister; HandleMetrics;
                      LogPrintf ("Serving on " +:+ listenAddr flags
                                 +:+ newline);
                      Serve (listenAddr flags)],
               LogFatal (Error (ListenAndServe env (listenAddr flags))))
          end
      end
  end.

(** ** Sample services and collaborators *)

Definition clusterIPWithMarkers : Service :=
  {| Namespace := "default"; Name := "db"; UID := "u-1";
     Annotations := {[ gcpLbInternal := "external" ]};
     Spec := {| Type_ := ServiceTypeClusterIP |} |}.

Definition publicLb : Service :=
  {| Namespace := "default"; Name := "web"; UID := "u-2";
     Annotations := ∅;
     Spec := {| Type_ := ServiceTypeLoadBalancer |} |}.

Definition awsInternalLb : Service :=
  {| Namespace := "default"; Name := "api"; UID := "u-3";
     Annotations := {[ awsLbInternal := awsLbInternalValue ]};
     Spec := {| Type_ := ServiceTypeLoadBalancer |} |}.

Definition gcpInternalLb : Service :=
  {| Namespace := "prod"; Name := "ilb"; UID := "u-4";
     Annotations := {[ gcpLbInternal := gcpLbInternalValue ]};
     Spec := {| Type_ := ServiceTypeLoadBalancer |} |}.

Definition sampleFlags : Flags :=
  {| kubeconfig := ""; listenAddr := ":8080"; terminate := true;
     slackToken := "xoxb-1"; slackChan := "#ops"; provider := "aws" |}.

(** A Slack API that accepts every post. *)
Definition slackOk : SlackApi :=
  {| PostMessage := fun _ chan _ => inl (chan, "1503435956.000247") |}.

(** A control plane that answers the successive deletes from a script and
    accepts every delete once the script is used up. *)
Definition scriptedClient : Client (list (option error)) :=
  {| ServicesDelete := fun script _ _ _ =>
       match script with
       | [] => ([], None)
       | answer :: script' => (script', answer)
       end |}.

Definition noOut : Out := {| logs := []; posts := [] |}.

Definition publicLbEntry : Entry := {| action := Added; resource := publicLb |}.

(** The service of [publicLbEntry] was deleted and created again: the UID of
    the entry no longer matches. *)
Definition staleWorld : World (list (option error)) :=
  {| fifo := [publicLbEntry];
     api := [Some (PreconditionFailed
                     "Precondition failed: UID in precondition: u-2, UID in object meta: u-9")];
     out := noOut |}.

(** The first delete fails with a server error, the retry succeeds. *)
Definition flakyWorld : World (list (option error)) :=
  {| fifo := [publicLbEntry];
     api := [Some (TransientError "the server is currently unable to handle the request");
             None];
     out := noOut |}.

Definition healthyWorld : World (list (option error)) :=
  {| fifo := [publicLbEntry]; api := []; out := noOut |}.

(** Only the channel is left out of the configuration. *)
Definition noChannelFlags : Flags :=
  {| kubeconfig := ""; listenAddr := ":8080"; terminate := true;
     slackToken := "xoxb-1"; slackChan := ""; provider := "aws" |}.

Definition noTokenFlags : Flags :=
  {| kubeconfig := ""; listenAddr := ":8080"; terminate := true;
     slackToken := ""; slackChan := "#ops"; provider := "aws" |}.

(** A Slack API that refuses every post. *)
Definition slackRefuses : SlackApi :=
  {| PostMessage := fun _ _ _ => inr (ErrorString "channel_not_found") |}.

Definition azureFlags : Flags :=
  {| kubeconfig := ""; listenAddr := ":8080"; terminate := true;
     slackToken := ""; slackChan := ""; provider := "azure" |}.

(** Configuration loaders that succeed; the server fails to bind. *)
Definition inCluster : Env unit unit :=
  {| InClusterConfig := inl tt;
     BuildConfigFromFlags := fun _ _ => inl tt;
     NewForConfig := fun _ => inl tt;
     ListenAndServe := fun _ => ErrorString "listen tcp :8080: bind: address already in use" |}.

Definition twoServices : svcCollector :=
  {| store := {[ MetaNamespaceKeyFunc publicLb := publicLb;
                 MetaNamespaceKeyFunc clusterIPWithMarkers := clusterIPWithMarkers ]} |}.

(** A later event for the key of [publicLbEntry]: the service was annotated. *)
Definition publicLbUpdate : Entry :=
  {| action := Updated;
     resource :=
       {| Namespace := "default"; Name := "web"; UID := "u-2";
          Annotations := {[ awsLbInternal := awsLbInternalValue ]};
          Spec := {| Type_ := ServiceTypeLoadBalancer |} |} |}.

(** ** [svcCollector.Describe] (lines 53-55) *)

Definition Describe (c : svcCollector) (ch : list Desc) : list Desc :=
  ch ++ [svcInfo].

(** ** The earlier version of [main.go] (second part of the file)

    It has one provider, no termination mode and no provider flag. *)

Module Legacy.

Definition lbInternal : string :=
  "service.beta.kubernetes.io/aws-load-balancer-internal".
Definition lbInternalValue : string := "0.0.0.0/0".

Definition isInternal (svc : Service) : bool :=
  negb (String.eqb (Type_ (Spec svc)) ServiceTypeLoadBalancer)
  || String.eqb (index (Annotations svc) lbInternal) lbInternalValue.

Definition main {Config Clientset : Type} (flags : Flags)
    (env : Env Config Clientset) : list Step * Exit :=
  let config :=
    if String.eqb (kubeconfig flags) "" then InClusterConfig env
    else BuildConfigFromFlags env "" (kubeconfig flags) in
  match config with
  | inr err => ([], Panic (Error err))
  | inl config =>
      match NewForConfig env config with
      | inr err => ([], Panic (Error err))
      | inl clientset =>
          ([RunStoreReflector; MustRegister; HandleMetrics;
            LogPrintf ("Serving on " +:+ listenAddr flags +:+ newline);
            Serve (listenAddr flags)],
           LogFatal (Error (ListenAndServe env (listenAddr flags))))
      end
  end.

End Legacy.

(** The service with one annotation set, [svc.Annotations[k] = v]. *)
Definition withAnnotation (k v : string) (svc : Service) : Service :=
  {| Namespace := Namespace svc; Name := Name svc; UID := UID svc;
     Annotations := <[k := v]> (Annotations svc);
     Spec := Spec svc |}.

(** ** Observing the deletes of a run

    A client that forwards every delete to another client and keeps the
    list of the calls it was asked to make. *)

Record DeleteCall := {
  callNamespace : string;
  callName : string;
  callOptions : DeleteOptions
}.

Definition recording {S : Type} (c : Client S) : Client (S * list DeleteCall) :=
  {| ServicesDelete := fun st ns name opts =>
       let '(s', err) := ServicesDelete c st.1 ns name opts in
       ((s', st.2 ++ [{| callNamespace := ns; callName := name;
                         callOptions := opts |}]), err) |}.

(** The delete the worker issues for a service (lines 108-113). *)
Definition deleteOf (svc : Service) : DeleteCall :=
  {| callNamespace := Namespace svc; callName := Name svc;
     callOptions :=
       {| DeletePreconditions := Some {| PreconditionsUID := UID svc |} |} |}.

(** The services the reflector hands over during a schedule. *)
Fixpoint ingested (schedule : list Tick) : list Service :=
  match schedule with
  | [] => []
  | Ingest _ svc :: rest => svc :: ingested rest
  | Turn :: rest => ingested rest
  end.

(** A control plane that refuses every delete. *)
Definition refusingClient : Client unit :=
  {| ServicesDelete := fun s _ _ _ =>
       (s, Some (TransientError "connection refused")) |}.

Definition awsInternalEntry : Entry :=
  {| action := Added; resource := awsInternalLb |}.

Definition quietWorld : World (list (option error)) :=
  {| fifo := [awsInternalEntry]; api := []; out := noOut |}.

Definition gcpFlags : Flags :=
  {| kubeconfig := "/etc/kube/config"; listenAddr := ":9090";
     terminate := false; slackToken := ""; slackChan := "";
     provider := "gcp" |}.

Definition awsFlags : Flags :=
  {| kubeconfig := ""; listenAddr := ":8080"; terminate := false;
     slackToken := ""; slackChan := ""; provider := "aws" |}.

(** No in-cluster configuration; the kubeconfig file loads. *)
Definition outOfCluster : Env unit unit :=
  {| InClusterConfig := inr (ErrorString "unable to load in-cluster configuration");
     BuildConfigFromFlags := fun _ _ => inl tt;
     NewForConfig := fun _ => inl tt;
     ListenAndServe := fun _ => ErrorString "http: Server closed" |}.

(** * Properties *)

(** ** Classifier *)

Lemma index_eqb_lookup (m : gmap string string) (k v : string) :
  v ≠ "" → String.eqb (index m k) v = true ↔ m !! k = Some v.
Proof.
  intros Hv. unfold index. rewrite String.eqb_eq.
  destruct (m !! k) as [x|]; simpl; split; intros H; try congruence.
Qed.

(** C1: a service whose type is not LoadBalancer is internal, whatever its
    annotations and whatever the provider flag. *)
Theorem isInternal_not_load_balancer (provider : string) (svc : Service) :
  Type_ (Spec svc) ≠ ServiceTypeLoadBalancer →
  isInternal provider svc = true.
Proof.
  intros Hty. apply String.eqb_neq in Hty. unfold isInternal.
  rewrite Hty. simpl. by destruct (String.eqb provider "aws").
Qed.

Lemma isInternal_not_load_balancer_witness :
  isInternal "azure" clusterIPWithMarkers = true.
Proof.
  apply isInternal_not_load_balancer. vm_compute. discriminate.
Defined.

(** C2: a LoadBalancer service is internal exactly when the annotation under
    the provider's marker key is the provider's expected value; a missing key
    or any other value makes it external. *)
Theorem isInternal_load_balancer (svc : Service) :
  Type_ (Spec svc) = ServiceTypeLoadBalancer →
  (isInternal "aws" svc = true ↔
     Annotations svc !! "service.beta.kubernetes.io/aws-load-balancer-internal"
       = Some "0.0.0.0/0")
  ∧ (isInternal "gcp" svc = true ↔
       Annotations svc !! "cloud.google.com/load-balancer-type"
         = Some "internal")
  ∧ (Annotations svc !! awsLbInternal = None → isInternal "aws" svc = false)
  ∧ (Annotations svc !! gcpLbInternal = None → isInternal "gcp" svc = false)
  ∧ (∀ v, v ≠ awsLbInternalValue →
          isInternal "aws" (
            {| Namespace := Namespace svc; Name := Name svc; UID := UID svc;
               Annotations := <[awsLbInternal := v]> (Annotations svc);
               Spec := Spec svc |}) = false)
  ∧ (∀ v, v ≠ gcpLbInternalValue →
          isInternal "gcp" (
            {| Namespace := Namespace svc; Name := Name svc; UID := UID svc;
               Annotations := <[gcpLbInternal := v]> (Annotations svc);
               Spec := Spec svc |}) = false).
Proof.
  intros Hty. unfold isInternal. simpl. rewrite Hty. simpl.
  split_and!.
  - by apply index_eqb_lookup.
  - by apply index_eqb_lookup.
  - intros H. unfold index. by rewrite H.
  - intros H. unfold index. by rewrite H.
  - intros v Hv. unfold index. rewrite lookup_insert_eq. simpl.
    by apply String.eqb_neq.
  - intros v Hv. unfold index. rewrite lookup_insert_eq. simpl.
    by apply String.eqb_neq.
Qed.

Lemma isInternal_load_balancer_witness :
  isInternal "aws" awsInternalLb = true ∧ isInternal "gcp" awsInternalLb = false.
Proof.
  destruct (isInternal_load_balancer awsInternalLb eq_refl)
    as (Haws & _ & _ & Hgcp & _).
  split.
  - apply Haws. reflexivity.
  - apply Hgcp. reflexivity.
Defined.

(** C10: every provider value other than aws, supported or not, is
    classified with the GCP marker key and value; no provider is rejected. *)
Theorem isInternal_other_provider_is_gcp (provider : string) (svc : Service) :
  provider ≠ "aws" →
  isInternal provider svc = isInternal "gcp" svc
  ∧ isInternal provider svc =
      negb (String.eqb (Type_ (Spec svc)) "LoadBalancer")
      || String.eqb (index (Annotations svc) "cloud.google.com/load-balancer-type")
           "internal".
Proof.
  intros Hp. apply String.eqb_neq in Hp. unfold isInternal.
  rewrite Hp. simpl. done.
Qed.

Lemma isInternal_other_provider_is_gcp_witness :
  isInternal "azure" gcpInternalLb = true
  ∧ isInternal "" awsInternalLb = false.
Proof.
  split.
  - destruct (isInternal_other_provider_is_gcp "azure" gcpInternalLb) as [-> _];
      [discriminate | reflexivity].
  - destruct (isInternal_other_provider_is_gcp "" awsInternalLb) as [-> _];
      [discriminate | reflexivity].
Defined.

(** ** Change queue *)

Lemma pending_absent (k : Key) (q : FIFO) :
  k ∉ entryKey <$> q → pending k q = [].
Proof.
  unfold pending. induction q as [|e q IH]; [done|].
  rewrite fmap_cons, not_elem_of_cons. intros [Hk Hq].
  rewrite filter_cons_False by congruence. auto.
Qed.

Lemma pending_present (k : Key) (q : FIFO) :
  k ∈ entryKey <$> q → pending k q ≠ [].
Proof.
  unfold pending. induction q as [|e q IH]; rewrite ?fmap_cons.
  - by intros ?%elem_of_nil.
  - intros [->|Hq]%elem_of_cons.
    + by rewrite filter_cons_True.
    + rewrite filter_cons. case_decide; [done | auto].
Qed.

Lemma push_fresh (e : Entry) (q : FIFO) :
  entryKey e ∉ entryKey <$> q → push e q = q ++ [e].
Proof.
  induction q as [|e' q IH]; [done|].
  rewrite fmap_cons, not_elem_of_cons. intros [Hk Hq]. simpl.
  rewrite bool_decide_eq_false_2 by congruence. by rewrite IH.
Qed.

Lemma push_keys_present (e : Entry) (q : FIFO) :
  entryKey e ∈ entryKey <$> q → entryKey <$> push e q = entryKey <$> q.
Proof.
  induction q as [|e' q IH]; rewrite ?fmap_cons.
  - by intros ?%elem_of_nil.
  - intros Hin. simpl. case_bool_decide as Hk.
    + by rewrite fmap_cons, Hk.
    + rewrite fmap_cons. f_equal. apply IH.
      apply elem_of_cons in Hin as [Heq|Hin]; [congruence | done].
Qed.

Lemma push_NoDup (e : Entry) (q : FIFO) :
  NoDup (entryKey <$> q) → NoDup (entryKey <$> push e q).
Proof.
  intros Hq. destruct (decide (entryKey e ∈ entryKey <$> q)) as [Hin|Hnin].
  - by rewrite push_keys_present.
  - rewrite push_fresh, fmap_app by done. simpl.
    apply NoDup_app. split_and!; [done | | apply NoDup_singleton].
    intros k Hk ->%list_elem_of_singleton. done.
Qed.

Lemma pending_push (e : Entry) (q : FIFO) :
  NoDup (entryKey <$> q) → pending (entryKey e) (push e q) = [e].
Proof.
  induction q as [|e' q IH]; rewrite ?fmap_cons.
  - intros _. unfold pending. simpl. by rewrite filter_cons_True.
  - intros [Hnin Hq]%NoDup_cons. simpl. case_bool_decide as Hk.
    + unfold pending. rewrite filter_cons_True by done.
      f_equal. apply pending_absent. by rewrite <- Hk.
    + unfold pending. rewrite filter_cons_False by done. by apply IH.
Qed.

Lemma push_push (e1 e2 : Entry) (q : FIFO) :
  entryKey e1 = entryKey e2 → push e2 (push e1 q) = push e2 q.
Proof.
  intros Hk. induction q as [|e' q IH]; simpl.
  - by rewrite bool_decide_eq_true_2.
  - rewrite <- Hk. case_bool_decide as Hk'; simpl.
    + by rewrite bool_decide_eq_true_2.
    + rewrite bool_decide_eq_false_2 by congruence. f_equal.
      by rewrite IH.
Qed.

Lemma push_length (e : Entry) (q : FIFO) : length (push e q) ≤ S (length q).
Proof.
  induction q as [|e' q IH]; simpl; [lia|].
  case_bool_decide; simpl; lia.
Qed.

Lemma drain_all (n : nat) (q : FIFO) : length q ≤ n → drain n q = q.
Proof.
  revert q. induction n as [|n IH]; intros [|e q]; simpl; try done; try lia.
  intros Hn. f_equal. apply IH. lia.
Qed.

Lemma pending_requeue (e : Entry) (q : FIFO) :
  pending (entryKey e) (requeue e q) ≠ [].
Proof.
  unfold requeue. destruct (pending (entryKey e) q) as [|e' l] eqn:Hp.
  - unfold pending. rewrite filter_app, filter_cons_True by done.
    by destruct (filter _ q).
  - by rewrite Hp.
Qed.

(** C6: two events pushed for one key before any pop leave a single pending
    entry for that key, the later one; the keys of the queue stay pairwise
    distinct; popping until the queue blocks yields that entry once and no
    other entry for the key. *)
Theorem push_coalesces (q : FIFO) (e1 e2 : Entry) :
  NoDup (entryKey <$> q) →
  entryKey e1 = entryKey e2 →
  NoDup (entryKey <$> push e2 (push e1 q))
  ∧ pending (entryKey e2) (push e2 (push e1 q)) = [e2]
  ∧ length (push e2 (push e1 q)) ≤ S (length q)
  ∧ (∀ n, length (push e2 (push e1 q)) ≤ n →
          pending (entryKey e2) (drain n (push e2 (push e1 q))) = [e2])
  ∧ (q = NewFIFO →
       pop (push e2 (push e1 q)) = Some (e2, NewFIFO) ∧ pop NewFIFO = None).
Proof.
  intros Hq Hk. rewrite push_push by done. split_and!.
  - by apply push_NoDup.
  - by apply pending_push.
  - apply push_length.
  - intros n Hn. rewrite drain_all by done. by apply pending_push.
  - intros ->. done.
Qed.

Lemma push_coalesces_witness :
  pop (push publicLbUpdate (push publicLbEntry NewFIFO))
    = Some (publicLbUpdate, NewFIFO)
  ∧ pending ("default", "web") (push publicLbUpdate (push publicLbEntry NewFIFO))
    = [publicLbUpdate].
Proof.
  destruct (push_coalesces NewFIFO publicLbEntry publicLbUpdate)
    as (_ & Hone & _ & _ & Hpop).
  - apply NoDup_nil_2.
  - reflexivity.
  - split; [apply Hpop; reflexivity | exact Hone].
Defined.

(** ** Termination worker *)

Section Worker.
Context {S : Type} (client : Client S) (provider : string).

(** A failed delete, whatever the error: the callback wraps the error in
    [ErrRequeue], [Pop] requeues the entry, the loop logs and goes on. *)
Lemma terminator_iter_delete_failed (notify : Service -> Out -> Out)
    (w : World S) (e : Entry) (q' : FIFO) (s' : S) (err : error) :
  pop (fifo w) = Some (e, q') →
  isInternal provider (resource e) = false →
  ServicesDelete client (api w) (Namespace (resource e)) (Name (resource e))
    {| DeletePreconditions := Some {| PreconditionsUID := UID (resource e) |} |}
    = (s', Some err) →
  terminator_iter client provider notify w =
    Some {| fifo := requeue e q'; api := s';
            out := Printf ("Error deleting " +:+ Namespace (resource e) +:+ "/"
                           +:+ Name (resource e) +:+ ": " +:+ Error err
                           +:+ newline) (out w) |}.
Proof.
  intros Hpop Hext Hdel. unfold terminator_iter, Pop, process.
  rewrite Hpop, Hext, Hdel. simpl. by rewrite Hext.
Qed.

Lemma requeue_after_pop (q q' : FIFO) (e : Entry) :
  NoDup (entryKey <$> q) → pop q = Some (e, q') → requeue e q' = q' ++ [e].
Proof.
  destruct q as [|e0 q0]; [done|]. rewrite fmap_cons.
  intros [Hnin _]%NoDup_cons [= -> ->].
  unfold requeue. by rewrite pending_absent.
Qed.

(** C4: a transient delete failure requeues the entry, the loop goes on to
    its next turn, and the notifier is not invoked: the turn ends the same
    way whatever the notifier is, with one more log line and no post. *)
Theorem transient_failure_requeues (notify : Service -> Out -> Out)
    (w : World S) (e : Entry) (q' : FIFO) (s' : S) (msg : string) :
  pop (fifo w) = Some (e, q') →
  isInternal provider (resource e) = false →
  ServicesDelete client (api w) (Namespace (resource e)) (Name (resource e))
    {| DeletePreconditions := Some {| PreconditionsUID := UID (resource e) |} |}
    = (s', Some (TransientError msg)) →
  let w' :=
    {| fifo := requeue e q'; api := s';
       out := Printf ("Error deleting " +:+ Namespace (resource e) +:+ "/"
                      +:+ Name (resource e) +:+ ": " +:+ msg +:+ newline)
                (out w) |} in
  terminator_iter client provider notify w = Some w'
  ∧ pending (entryKey e) (fifo w') ≠ []
  ∧ (NoDup (entryKey <$> fifo w) → fifo w' = q' ++ [e])
  ∧ posts (out w') = posts (out w)
  ∧ (∀ notify', terminator_iter client provider notify' w = Some w')
  ∧ (∀ rest, terminator client provider notify (Turn :: rest) w
             = terminator client provider notify rest w').
Proof.
  intros Hpop Hext Hdel w'.
  assert (Hall : ∀ n, terminator_iter client provider n w = Some w').
  { intros n. by rewrite (terminator_iter_delete_failed n w e q' s' _ Hpop Hext Hdel). }
  split_and!; try done.
  - apply pending_requeue.
  - intros Hnd. simpl. by eapply requeue_after_pop.
  - intros rest. simpl. by rewrite Hall.
Qed.

(** C3 (amended): a delete that fails on the UID precondition is handled
    like every failed delete: the notifier is not invoked, the error is
    logged and the entry is requeued. *)
Theorem precondition_failure_requeues (notify : Service -> Out -> Out)
    (w : World S) (e : Entry) (q' : FIFO) (s' : S) (msg : string) :
  pop (fifo w) = Some (e, q') →
  isInternal provider (resource e) = false →
  ServicesDelete client (api w) (Namespace (resource e)) (Name (resource e))
    {| DeletePreconditions := Some {| PreconditionsUID := UID (resource e) |} |}
    = (s', Some (PreconditionFailed msg)) →
  let w' :=
    {| fifo := requeue e q'; api := s';
       out := Printf ("Error deleting " +:+ Namespace (resource e) +:+ "/"
                      +:+ Name (resource e) +:+ ": " +:+ msg +:+ newline)
                (out w) |} in
  (∀ notify', terminator_iter client provider notify' w = Some w')
  ∧ posts (out w') = posts (out w)
  ∧ logs (out w') = logs (out w) ++
      ["Error deleting " +:+ Namespace (resource e) +:+ "/"
       +:+ Name (resource e) +:+ ": " +:+ msg +:+ newline]
  ∧ pending (entryKey e) (fifo w') ≠ []
  ∧ (NoDup (entryKey <$> fifo w) → fifo w' = q' ++ [e]).
Proof.
  intros Hpop Hext Hdel w'. split_and!; try done.
  - intros n. by rewrite (terminator_iter_delete_failed n w e q' s' _ Hpop Hext Hdel).
  - apply pending_requeue.
  - intros Hnd. simpl. by eapply requeue_after_pop.
Qed.

(** C5: when the conditional delete of an external service succeeds, the
    turn logs the deletion and invokes the notifier once, on that service;
    [notifySlack] with a token then posts one message that names the
    namespace and the name of the service. *)
Theorem successful_delete_notifies_once (notify : Service -> Out -> Out)
    (w : World S) (e : Entry) (q' : FIFO) (s' : S) :
  pop (fifo w) = Some (e, q') →
  isInternal provider (resource e) = false →
  ServicesDelete client (api w) (Namespace (resource e)) (Name (resource e))
    {| DeletePreconditions := Some {| PreconditionsUID := UID (resource e) |} |}
    = (s', None) →
  terminator_iter client provider notify w =
    Some {| fifo := q'; api := s';
            out := notify (resource e)
                     (Printf ("Deleted external service "
                              +:+ Namespace (resource e) +:+ "/"
                              +:+ Name (resource e) +:+ newline) (out w)) |}
  ∧ (∀ flags slack o, slackToken flags ≠ "" →
       posts (notifySlack flags slack (resource e) o) =
         posts o ++
         [{| postToken := slackToken flags; postChannel := slackChan flags;
             postText :=
               "Cool story bro: kube-svc-watch just deleted a public Service ("
               +:+ Namespace (resource e) +:+ "/" +:+ Name (resource e)
               +:+ ")! kthxbye." |}]).
Proof.
  intros Hpop Hext Hdel. split.
  - unfold terminator_iter, Pop, process.
    rewrite Hpop, Hext, Hdel. simpl. by rewrite Hext.
  - intros flags slack o Htok. apply String.eqb_neq in Htok.
    unfold notifySlack. rewrite Htok.
    by destruct (PostMessage slack _ _ _) as [[chanId ts]|err].
Qed.
End Worker.

Lemma transient_failure_requeues_witness :
  terminator_iter scriptedClient "aws" (notifySlack sampleFlags slackOk) flakyWorld
  = Some {| fifo := [publicLbEntry]; api := [None];
            out := {| logs := ["Error deleting default/web: the server is currently unable to handle the request"
                               +:+ newline];
                      posts := [] |} |}.
Proof.
  apply (transient_failure_requeues scriptedClient "aws"
           (notifySlack sampleFlags slackOk) flakyWorld publicLbEntry [] [None]
           "the server is currently unable to handle the request");
    reflexivity.
Defined.

Lemma precondition_failure_requeues_witness :
  terminator_iter scriptedClient "aws" (notifySlack sampleFlags slackOk) staleWorld
  = Some {| fifo := [publicLbEntry]; api := [];
            out := {| logs := ["Error deleting default/web: Precondition failed: UID in precondition: u-2, UID in object meta: u-9"
                               +:+ newline];
                      posts := [] |} |}.
Proof.
  apply (precondition_failure_requeues scriptedClient "aws"
           (notifySlack sampleFlags slackOk) staleWorld publicLbEntry [] []
           "Precondition failed: UID in precondition: u-2, UID in object meta: u-9");
    reflexivity.
Defined.

(** C3 as stated fails: after a precondition mismatch the entry has been
    requeued, it is pending again, and the next turn repeats the delete. *)
Lemma precondition_failure_not_a_noop :
  ¬ (∀ w', terminator_iter scriptedClient "aws"
             (notifySlack sampleFlags slackOk) staleWorld = Some w' →
           pending (entryKey publicLbEntry) (fifo w') = [])
  ∧ fifo <$> terminator_iter scriptedClient "aws"
               (notifySlack sampleFlags slackOk) staleWorld
    = Some [publicLbEntry].
Proof.
  split; [|reflexivity].
  intros H. specialize (H _ eq_refl). vm_compute in H. discriminate.
Qed.

Lemma successful_delete_notifies_once_witness :
  terminator_iter scriptedClient "aws" (notifySlack sampleFlags slackOk) healthyWorld
  = Some {| fifo := []; api := [];
            out := {| logs := ["Deleted external service default/web" +:+ newline;
                               "Sent notification to slack #ops (#ops) at 1503435956.000247"
                               +:+ newline];
                      posts := [{| postToken := "xoxb-1"; postChannel := "#ops";
                                   postText := "Cool story bro: kube-svc-watch just deleted a public Service (default/web)! kthxbye." |}] |} |}.
Proof.
  apply (successful_delete_notifies_once scriptedClient "aws"
           (notifySlack sampleFlags slackOk) healthyWorld publicLbEntry [] []);
    reflexivity.
Defined.

(** The delete fails once with a server error and the retry succeeds: the
    entry is requeued, and the notifier posts once, not twice. *)
Example retry_notifies_once :
  posts (out (terminator scriptedClient "aws" (notifySlack sampleFlags slackOk)
                [Turn; Turn; Turn] flakyWorld))
  = [{| postToken := "xoxb-1"; postChannel := "#ops";
        postText := "Cool story bro: kube-svc-watch just deleted a public Service (default/web)! kthxbye." |}].
Proof. reflexivity. Qed.

(** ** Notifier *)

(** C8 (amended): with an empty Slack token the notifier is a silent no-op:
    nothing is posted and nothing is logged, whatever the channel is. *)
Theorem notifySlack_without_token (flags : Flags) (slack : SlackApi)
    (svc : Service) (o : Out) :
  slackToken flags = "" → notifySlack flags slack svc o = o.
Proof. intros Htok. unfold notifySlack. by rewrite Htok. Qed.

Lemma notifySlack_without_token_witness :
  notifySlack noTokenFlags slackRefuses publicLb noOut = noOut.
Proof. apply notifySlack_without_token. reflexivity. Defined.

(** C8 as stated fails: with a token and an empty channel the post is
    attempted, and the refusal of the API is logged. *)
Lemma notifySlack_empty_channel_posts :
  ¬ (∀ flags : Flags,
       slackChan flags = "" ∨ slackToken flags = "" →
       notifySlack flags slackRefuses publicLb noOut = noOut)
  ∧ notifySlack noChannelFlags slackRefuses publicLb noOut =
      {| logs := ["Error posting to slack : channel_not_found" +:+ newline];
         posts := [{| postToken := "xoxb-1"; postChannel := "";
                      postText := "Cool story bro: kube-svc-watch just deleted a public Service (default/web)! kthxbye." |}] |}.
Proof.
  split; [|reflexivity].
  intros H. specialize (H noChannelFlags (or_introl eq_refl)). discriminate H.
Qed.

(** ** Metrics collector *)

Lemma collectSvc_sends (provider : string) (c : svcCollector)
    (ch : list Metric) (svc : Service) :
  collectSvc provider c ch svc =
    Some (ch ++ [{| desc := svcInfo; valueType := GaugeValue; value := 1;
                    labelValues :=
                      [Namespace svc; Name svc; Type_ (Spec svc);
                       Sprintf_v (isInternal provider svc)] |}]).
Proof. reflexivity. Qed.

Lemma List_size (st : gmap Key Service) : length (List st) = size st.
Proof. unfold List. by rewrite length_fmap, length_map_to_list. Qed.

Lemma elem_of_List (st : gmap Key Service) (svc : Service) :
  svc ∈ List st ↔ ∃ k, st !! k = Some svc.
Proof.
  unfold List. rewrite list_elem_of_fmap. split.
  - intros [[k x] [-> Hin]]. exists k. by apply elem_of_map_to_list.
  - intros [k Hk]. exists (k, svc). split; [done|]. by apply elem_of_map_to_list.
Qed.

(** C9: a scrape sends, for each service of the store, one gauge sample of
    value 1 labelled with namespace, name, type and the classification
    computed during the scrape; what is sent depends on the store as it is at
    the scrape and on nothing kept from earlier scrapes. *)
Theorem Collect_one_sample_per_service (provider : string) (c : svcCollector)
    (ch : list Metric) :
  Collect provider c ch =
    Some (ch ++
          ((λ svc, {| desc := svcInfo; valueType := GaugeValue; value := 1;
                      labelValues :=
                        [Namespace svc; Name svc; Type_ (Spec svc);
                         if isInternal provider svc then "true" else "false"] |})
           <$> List (store c)))
  ∧ length (List (store c)) = size (store c)
  ∧ NoDup (map_to_list (store c)).*1
  ∧ (∀ svc, svc ∈ List (store c) ↔ ∃ k, store c !! k = Some svc).
Proof.
  split_and!.
  - unfold Collect. generalize (List (store c)). intros l. revert ch.
    induction l as [|svc l IH]; intros ch; simpl.
    + by rewrite app_nil_r.
    + rewrite collectSvc_sends, IH, <- app_assoc. done.
  - apply List_size.
  - apply NoDup_fst_map_to_list.
  - apply elem_of_List.
Qed.

Example Collect_twoServices :
  Collect "aws" twoServices [] =
    Some [ {| desc := svcInfo; valueType := GaugeValue; value := 1;
              labelValues := ["default"; "web"; "LoadBalancer"; "false"] |};
           {| desc := svcInfo; valueType := GaugeValue; value := 1;
              labelValues := ["default"; "db"; "ClusterIP"; "true"] |} ].
Proof. vm_compute. reflexivity. Qed.

(** ** Startup *)

(** C7: with a provider flag that is neither aws nor gcp, [main] ends in a
    panic; the reflector of the store is not started and the metrics are not
    served; once the configuration is loaded the panic is the one of the
    provider check.  In termination mode the worker goroutine has been
    started before the check. *)
Theorem main_unknown_provider_panics {Config Clientset : Type} (flags : Flags)
    (env : Env Config Clientset) :
  provider flags ≠ "aws" →
  provider flags ≠ "gcp" →
  (∃ msg, (main flags env).2 = Panic msg)
  ∧ (∀ st, st ∈ (main flags env).1 →
           st = LogPrintf ("Termination mode engaged" +:+ newline)
           ∨ st = GoTerminator)
  ∧ (∀ config clientset,
       (if String.eqb (kubeconfig flags) "" then InClusterConfig env
        else BuildConfigFromFlags env "" (kubeconfig flags)) = inl config →
       NewForConfig env config = inl clientset →
       main flags env =
         (if terminate flags
          then [LogPrintf ("Termination mode engaged" +:+ newline); GoTerminator]
          else [],
          Panic "unknown provider specified")).
Proof.
  intros Haws%String.eqb_neq Hgcp%String.eqb_neq. unfold main.
  rewrite Haws, Hgcp.
  destruct (if String.eqb (kubeconfig flags) "" then _ else _)
    as [config|err]; simpl.
  2:{ split_and!; [by eexists | by intros st ?%elem_of_nil |].
      intros ?? Hcfg. discriminate Hcfg. }
  destruct (NewForConfig env config) as [clientset|err] eqn:Hnew; simpl.
  2:{ split_and!; [by eexists | by intros st ?%elem_of_nil |].
      intros ?? [= <-] Hcs. congruence. }
  split_and!; [by eexists | | done].
  intros st. destruct (terminate flags).
  - rewrite !elem_of_cons, elem_of_nil. tauto.
  - by intros ?%elem_of_nil.
Qed.

Lemma main_unknown_provider_panics_witness :
  main azureFlags inCluster =
    ([LogPrintf ("Termination mode engaged" +:+ newline); GoTerminator],
     Panic "unknown provider specified").
Proof.
  destruct (main_unknown_provider_panics azureFlags inCluster) as (_ & _ & H).
  - vm_compute. discriminate.
  - vm_compute. discriminate.
  - apply (H tt tt); reflexivity.
Defined.

(** ** Runs of the termination worker *)

Lemma elem_of_push (x e : Entry) (q : FIFO) :
  x ∈ push e q → x = e ∨ x ∈ q.
Proof.
  induction q as [|e' q IH]; simpl.
  - intros ->%list_elem_of_singleton. by left.
  - case_bool_decide.
    + rewrite !elem_of_cons. tauto.
    + rewrite !elem_of_cons. intros [->|Hx]; [tauto|].
      destruct (IH Hx); tauto.
Qed.

Lemma elem_of_requeue (x e : Entry) (q : FIFO) :
  x ∈ requeue e q → x = e ∨ x ∈ q.
Proof.
  unfold requeue. destruct (pending (entryKey e) q); [|tauto].
  rewrite elem_of_app, list_elem_of_singleton. tauto.
Qed.

Lemma requeue_NoDup (e : Entry) (q : FIFO) :
  NoDup (entryKey <$> q) → NoDup (entryKey <$> requeue e q).
Proof.
  intros Hq. unfold requeue.
  destruct (pending (entryKey e) q) as [|x l] eqn:Hp; [|done].
  rewrite fmap_app. simpl. apply NoDup_app. split_and!; [done | | apply NoDup_singleton].
  intros k Hk ->%list_elem_of_singleton.
  by apply pending_present in Hk.
Qed.

(** The three ways a turn of the loop can go, read off the head of the
    queue, the classification and the answer of the control plane. *)
Lemma terminator_iter_inv {S : Type} (client : Client S) (provider : string)
    (notify : Service -> Out -> Out) (w : World S) :
  match fifo w with
  | [] => terminator_iter client provider notify w = None
  | e :: q' =>
      if isInternal provider (resource e)
      then terminator_iter client provider notify w =
             Some {| fifo := q'; api := api w; out := out w |}
      else
        match ServicesDelete client (api w) (Namespace (resource e))
                (Name (resource e)) (callOptions (deleteOf (resource e))) with
        | (s', Some err) =>
            terminator_iter client provider notify w =
              Some {| fifo := requeue e q'; api := s';
                      out := Printf ("Error deleting " +:+ Namespace (resource e)
                                     +:+ "/" +:+ Name (resource e) +:+ ": "
                                     +:+ Error err +:+ newline) (out w) |}
        | (s', None) =>
            terminator_iter client provider notify w =
              Some {| fifo := q'; api := s';
                      out := notify (resource e)
                               (Printf ("Deleted external service "
                                        +:+ Namespace (resource e) +:+ "/"
                                        +:+ Name (resource e) +:+ newline)
                                  (out w)) |}
        end
  end.
Proof.
  unfold terminator_iter, Pop, process. destruct (fifo w) as [|e q']; [done|].
  simpl. destruct (isInternal provider (resource e)) eqn:Hint.
  - simpl. by rewrite Hint.
  - destruct (ServicesDelete client _ _ _ _) as [s' [err|]]; simpl;
      by rewrite Hint.
Qed.

(** X1: while every service that reaches the queue is internal, a run of the
    worker issues no delete, writes no log line and never invokes the
    notifier, whatever the schedule. *)
Theorem internal_services_untouched {S : Type} (client : Client S)
    (provider : string) (notify : Service -> Out -> Out)
    (schedule : list Tick) (w : World S) :
  Forall (λ e, isInternal provider (resource e) = true) (fifo w) →
  Forall (λ svc, isInternal provider svc = true) (ingested schedule) →
  api (terminator client provider notify schedule w) = api w
  ∧ out (terminator client provider notify schedule w) = out w.
Proof.
  revert w. induction schedule as [|[a svc|] rest IH]; intros w Hq Hin; simpl.
  - done.
  - simpl in Hin. apply Forall_cons in Hin as [Hsvc Hrest].
    match goal with |- context [terminator _ _ _ rest ?w1] =>
      destruct (IH w1) as [-> ->]; [| done | done] end.
    simpl. apply Forall_forall. intros x Hx.
    apply elem_of_push in Hx as [->|Hx]; [done|].
    by eapply Forall_forall in Hq.
  - simpl in Hin. pose proof (terminator_iter_inv client provider notify w) as Hinv.
    destruct (fifo w) as [|e q'] eqn:Hf.
    + rewrite Hinv. by apply IH; [rewrite Hf|].
    + apply Forall_cons in Hq as [He Hq']. rewrite He in Hinv. rewrite Hinv.
      by destruct (IH {| fifo := q'; api := api w; out := out w |}) as [-> ->].
Qed.

Lemma internal_services_untouched_witness :
  api (terminator scriptedClient "aws" (notifySlack sampleFlags slackOk)
         [Turn; Ingest Updated clusterIPWithMarkers; Turn; Turn] quietWorld) = []
  ∧ out (terminator scriptedClient "aws" (notifySlack sampleFlags slackOk)
           [Turn; Ingest Updated clusterIPWithMarkers; Turn; Turn] quietWorld)
    = noOut.
Proof.
  apply (internal_services_untouched scriptedClient "aws"
           (notifySlack sampleFlags slackOk)
           [Turn; Ingest Updated clusterIPWithMarkers; Turn; Turn] quietWorld);
    repeat constructor.
Defined.

(** X2: against a control plane that fails every delete, the worker never
    invokes the notifier: the run ends in the same world whatever the
    notifier is, and the posts are those of the start. *)
Theorem failing_deletes_never_notify {S : Type} (client : Client S)
    (provider : string) (notify notify' : Service -> Out -> Out)
    (schedule : list Tick) (w : World S) :
  (∀ s ns name opts, (ServicesDelete client s ns name opts).2 ≠ None) →
  terminator client provider notify schedule w
    = terminator client provider notify' schedule w
  ∧ posts (out (terminator client provider notify schedule w)) = posts (out w).
Proof.
  intros Hfail. revert w.
  induction schedule as [|[a svc|] rest IH]; intros w; simpl.
  - done.
  - destruct (IH {| fifo := push {| action := a; resource := svc |} (fifo w);
                    api := api w; out := out w |}) as [-> ->]. done.
  - pose proof (terminator_iter_inv client provider notify w) as Hinv.
    pose proof (terminator_iter_inv client provider notify' w) as Hinv'.
    destruct (fifo w) as [|e q'].
    + rewrite Hinv, Hinv'. apply IH.
    + destruct (isInternal provider (resource e)).
      * rewrite Hinv, Hinv'. destruct (IH {| fifo := q'; api := api w; out := out w |})
          as [-> ->]. done.
      * specialize (Hfail (api w) (Namespace (resource e)) (Name (resource e))
                      (callOptions (deleteOf (resource e)))).
        destruct (ServicesDelete client _ _ _ _) as [s' [err|]]; [|done].
        rewrite Hinv, Hinv'.
        match goal with |- context [terminator _ _ notify rest ?w1] =>
          destruct (IH w1) as [-> ->] end.
        done.
Qed.

Lemma failing_deletes_never_notify_witness :
  posts (out (terminator refusingClient "gcp" (notifySlack sampleFlags slackOk)
                [Ingest Added publicLb; Turn; Turn; Turn]
                {| fifo := NewFIFO; api := tt; out := noOut |})) = [].
Proof.
  destruct (failing_deletes_never_notify refusingClient "gcp"
              (notifySlack sampleFlags slackOk) (λ _ o, o)
              [Ingest Added publicLb; Turn; Turn; Turn]
              {| fifo := NewFIFO; api := tt; out := noOut |}) as [_ H].
  - intros s ns name opts. simpl. discriminate.
  - exact H.
Defined.

(** X3: every delete a run of the worker issues is the conditional delete of
    a service that went through the queue and that is external: namespace
    and name are those of the service and the precondition is its UID.  No
    delete goes out without a UID precondition or for an internal service. *)
Theorem deletes_are_conditional_and_external {S : Type} (client : Client S)
    (provider : string) (notify : Service -> Out -> Out)
    (schedule : list Tick) (w : World (S * list DeleteCall)) :
  ∃ new,
    (api (terminator (recording client) provider notify schedule w)).2
      = (api w).2 ++ new
    ∧ Forall (λ call, ∃ svc,
                svc ∈ (resource <$> fifo w) ++ ingested schedule
                ∧ isInternal provider svc = false
                ∧ call = deleteOf svc) new.
Proof.
  revert w. induction schedule as [|[a svc|] rest IH]; intros w; simpl.
  - exists []. by rewrite app_nil_r.
  - destruct (IH {| fifo := push {| action := a; resource := svc |} (fifo w);
                    api := api w; out := out w |}) as (new & Hnew & Hall).
    exists new. split; [done|].
    eapply Forall_impl; [exact Hall|]. simpl.
    intros call (svc' & Hin & Hext & ->). exists svc'. split_and!; try done.
    apply elem_of_app in Hin as [Hin|Hin]; [|set_solver].
    apply list_elem_of_fmap in Hin as (x & -> & Hx).
    apply elem_of_push in Hx as [->|Hx]; [set_solver|].
    apply elem_of_app. left. apply list_elem_of_fmap. eauto.
  - pose proof (terminator_iter_inv (recording client) provider notify w) as Hinv.
    destruct (fifo w) as [|e q'] eqn:Hf.
    + rewrite Hinv. destruct (IH w) as (new & Hnew & Hall).
      exists new. by rewrite Hf in Hall.
    + destruct (isInternal provider (resource e)) eqn:Hint.
      * rewrite Hinv.
        destruct (IH {| fifo := q'; api := api w; out := out w |})
          as (new & Hnew & Hall).
        exists new. split; [done|].
        eapply Forall_impl; [exact Hall|]. simpl.
        intros call (svc' & Hin & Hext & ->). exists svc'.
        split_and!; try done. apply elem_of_cons. by right.
      * simpl in Hinv.
        destruct (ServicesDelete client (api w).1 _ _ _) as [s' r].
        assert (∃ w1, terminator_iter (recording client) provider notify w = Some w1
                      ∧ (api w1).2 = (api w).2 ++ [deleteOf (resource e)]
                      ∧ ∀ x, x ∈ fifo w1 → x ∈ e :: q') as (w1 & -> & Hapi & Hsub).
        { destruct r as [err|]; eexists; (split; [exact Hinv|]); simpl;
            (split; [done|]); intros x Hx.
          - apply elem_of_requeue in Hx. set_solver.
          - set_solver. }
        destruct (IH w1) as (new & Hnew & Hall).
        exists (deleteOf (resource e) :: new). split.
        { rewrite Hnew, Hapi, <- app_assoc. done. }
        constructor.
        { exists (resource e). split_and!; try done. set_solver. }
        eapply Forall_impl; [exact Hall|]. simpl.
        intros call (svc' & Hin & Hext & ->). exists svc'.
        split_and!; try done.
        apply elem_of_app in Hin as [Hin|Hin]; [|set_solver].
        apply list_elem_of_fmap in Hin as (x & -> & Hx).
        apply Hsub in Hx.
        change (resource x ∈ (resource <$> (e :: q')) ++ ingested rest).
        apply elem_of_app. left. apply list_elem_of_fmap. eauto.
Qed.



(** X5: the keys of the pending entries stay pairwise distinct along every
    run of the worker: ingesting, popping and requeueing never leave two
    entries for one service. *)
Theorem terminator_keeps_one_entry_per_key {S : Type} (client : Client S)
    (provider : string) (notify : Service -> Out -> Out)
    (schedule : list Tick) (w : World S) :
  NoDup (entryKey <$> fifo w) →
  NoDup (entryKey <$> fifo (terminator client provider notify schedule w)).
Proof.
  revert w. induction schedule as [|[a svc|] rest IH]; intros w Hnd; simpl.
  - done.
  - apply IH. simpl. by apply push_NoDup.
  - pose proof (terminator_iter_inv client provider notify w) as Hinv.
    destruct (fifo w) as [|e q'] eqn:Hf.
    + rewrite Hinv. apply IH. by rewrite Hf.
    + rewrite fmap_cons in Hnd. apply NoDup_cons in Hnd as [_ Hq'].
      destruct (isInternal provider (resource e)).
      * rewrite Hinv. by apply IH.
      * destruct (ServicesDelete client _ _ _ _) as [s' [err|]];
          rewrite Hinv; apply IH; simpl; [by apply requeue_NoDup | done].
Qed.

Lemma terminator_keeps_one_entry_per_key_witness :
  NoDup (entryKey <$> fifo (terminator refusingClient "aws" (λ _ o, o)
                              [Ingest Added publicLb; Turn;
                               Ingest Updated publicLb; Turn]
                              {| fifo := NewFIFO; api := tt; out := noOut |})).
Proof.
  apply terminator_keeps_one_entry_per_key. apply NoDup_nil_2.
Defined.

(** X6: a delete that fails once and succeeds at the retry ends in one
    notification, after the error line and the deletion line; the entry is
    gone from the queue. *)
Theorem retry_after_failure_notifies_once {S : Type} (client : Client S)
    (provider : string) (notify : Service -> Out -> Out) (w : World S)
    (e : Entry) (s1 s2 : S) (err : error) :
  fifo w = [e] →
  isInternal provider (resource e) = false →
  ServicesDelete client (api w) (Namespace (resource e)) (Name (resource e))
    (callOptions (deleteOf (resource e))) = (s1, Some err) →
  ServicesDelete client s1 (Namespace (resource e)) (Name (resource e))
    (callOptions (deleteOf (resource e))) = (s2, None) →
  terminator client provider notify [Turn; Turn] w =
    {| fifo := []; api := s2;
       out := notify (resource e)
                (Printf ("Deleted external service " +:+ Namespace (resource e)
                         +:+ "/" +:+ Name (resource e) +:+ newline)
                   (Printf ("Error deleting " +:+ Namespace (resource e) +:+ "/"
                            +:+ Name (resource e) +:+ ": " +:+ Error err
                            +:+ newline) (out w))) |}.
Proof.
  intros Hf Hext Hd1 Hd2. simpl.
  pose proof (terminator_iter_inv client provider notify w) as Hinv.
  rewrite Hf, Hext, Hd1 in Hinv. rewrite Hinv. clear Hinv.
  change (requeue e []) with [e].
  match goal with |- context [terminator_iter _ _ _ ?w1] =>
    pose proof (terminator_iter_inv client provider notify w1) as Hinv end.
  cbn [fifo api out] in Hinv.
  rewrite Hext, Hd2 in Hinv. by rewrite Hinv.
Qed.

Lemma retry_after_failure_notifies_once_witness :
  terminator scriptedClient "aws" (notifySlack sampleFlags slackOk)
    [Turn; Turn] flakyWorld
  = {| fifo := []; api := [];
       out := {| logs := ["Error deleting default/web: the server is currently unable to handle the request"
                          +:+ newline;
                          "Deleted external service default/web" +:+ newline;
                          "Sent notification to slack #ops (#ops) at 1503435956.000247"
                          +:+ newline];
                 posts := [{| postToken := "xoxb-1"; postChannel := "#ops";
                              postText := "Cool story bro: kube-svc-watch just deleted a public Service (default/web)! kthxbye." |}] |} |}.
Proof.
  apply (retry_after_failure_notifies_once scriptedClient "aws"
           (notifySlack sampleFlags slackOk) flakyWorld publicLbEntry [None] []
           (TransientError "the server is currently unable to handle the request"));
    reflexivity.
Defined.

(** X7: when Slack refuses the post, the deletion stands: the entry is not
    requeued, the refusal is logged after the deletion line and the post was
    attempted once. *)
Theorem refused_post_does_not_requeue {S : Type} (client : Client S)
    (provider : string) (flags : Flags) (slack : SlackApi) (w : World S)
    (e : Entry) (q' : FIFO) (s' : S) (err : error) :
  pop (fifo w) = Some (e, q') →
  isInternal provider (resource e) = false →
  ServicesDelete client (api w) (Namespace (resource e)) (Name (resource e))
    (callOptions (deleteOf (resource e))) = (s', None) →
  slackToken flags ≠ "" →
  PostMessage slack (slackToken flags) (slackChan flags)
    ("Cool story bro: kube-svc-watch just deleted a public Service ("
     +:+ Namespace (resource e) +:+ "/" +:+ Name (resource e) +:+ ")! kthxbye.")
    = inr err →
  terminator_iter client provider (notifySlack flags slack) w =
    Some {| fifo := q'; api := s';
            out := {| logs := logs (out w) ++
                        ["Deleted external service " +:+ Namespace (resource e)
                         +:+ "/" +:+ Name (resource e) +:+ newline;
                         "Error posting to slack " +:+ slackChan flags +:+ ": "
                         +:+ Error err +:+ newline];
                      posts := posts (out w) ++
                        [{| postToken := slackToken flags;
                            postChannel := slackChan flags;
                            postText :=
                              "Cool story bro: kube-svc-watch just deleted a public Service ("
                              +:+ Namespace (resource e) +:+ "/"
                              +:+ Name (resource e) +:+ ")! kthxbye." |}] |} |}.
Proof.
  intros Hpop Hext Hdel Htok%String.eqb_neq Hpost.
  pose proof (terminator_iter_inv client provider (notifySlack flags slack) w)
    as Hinv.
  destruct (fifo w) as [|e0 q0]; [done|]. simpl in Hpop.
  injection Hpop as -> ->. rewrite Hext, Hdel in Hinv. rewrite Hinv.
  unfold notifySlack. rewrite Htok, Hpost. unfold Printf. simpl.
  by rewrite <- app_assoc.
Qed.

Lemma refused_post_does_not_requeue_witness :
  terminator_iter scriptedClient "aws" (notifySlack sampleFlags slackRefuses)
    healthyWorld
  = Some {| fifo := []; api := [];
            out := {| logs := ["Deleted external service default/web" +:+ newline;
                               "Error posting to slack #ops: channel_not_found"
                               +:+ newline];
                      posts := [{| postToken := "xoxb-1"; postChannel := "#ops";
                                   postText := "Cool story bro: kube-svc-watch just deleted a public Service (default/web)! kthxbye." |}] |} |}.
Proof.
  apply (refused_post_does_not_requeue scriptedClient "aws" sampleFlags
           slackRefuses healthyWorld publicLbEntry [] []
           (ErrorString "channel_not_found"));
    (reflexivity || discriminate).
Defined.

(** ** Collector and worker together *)

Lemma Collect_sends (provider : string) (c : svcCollector) (ch : list Metric) :
  Collect provider c ch =
    Some (ch ++
          ((λ svc, {| desc := svcInfo; valueType := GaugeValue; value := 1;
                      labelValues :=
                        [Namespace svc; Name svc; Type_ (Spec svc);
                         Sprintf_v (isInternal provider svc)] |})
           <$> List (store c))).
Proof.
  unfold Collect. generalize (List (store c)). intros l. revert ch.
  induction l as [|svc l IH]; intros ch; simpl.
  - by rewrite app_nil_r.
  - by rewrite collectSvc_sends, IH, <- app_assoc.
Qed.

(** X8: every metric a scrape sends carries the descriptor that [Describe]
    announces, with as many label values as the descriptor has labels, so
    that building the metric never panics; all of them are gauges of value
    1. *)
Theorem collected_metrics_match_description (provider : string)
    (c : svcCollector) :
  ∃ ms, Collect provider c [] = Some ms
        ∧ Forall (λ m, desc m ∈ Describe c []
                       ∧ length (labelValues m) = length (variableLabels (desc m))
                       ∧ valueType m = GaugeValue
                       ∧ value m = 1%Z) ms.
Proof.
  eexists. split; [apply Collect_sends|]. simpl.
  apply Forall_fmap, Forall_forall. intros svc _. simpl.
  split_and!; try done. unfold Describe. simpl. apply list_elem_of_singleton. done.
Qed.

(** X9: in every scrape, a sample whose type label is not LoadBalancer has
    the label internal set to true, whatever the provider. *)
Theorem non_load_balancer_samples_are_internal (provider : string)
    (c : svcCollector) (ms : list Metric) (m : Metric) :
  Collect provider c [] = Some ms →
  m ∈ ms →
  labelValues m !! 2 ≠ Some "LoadBalancer" →
  labelValues m !! 3 = Some "true".
Proof.
  rewrite Collect_sends. intros [= <-]. simpl.
  intros (svc & -> & _)%list_elem_of_fmap. simpl. intros Hty.
  assert (String.eqb (Type_ (Spec svc)) ServiceTypeLoadBalancer = false) as Hneq.
  { apply String.eqb_neq. intros Heq. apply Hty. by rewrite Heq. }
  unfold isInternal. rewrite Hneq. simpl.
  by destruct (String.eqb provider "aws").
Qed.

Lemma non_load_balancer_samples_are_internal_witness :
  labelValues {| desc := svcInfo; valueType := GaugeValue; value := 1;
                 labelValues := ["default"; "db"; "ClusterIP"; "true"] |} !! 3
  = Some "true".
Proof.
  apply (non_load_balancer_samples_are_internal "gcp" twoServices
           [ {| desc := svcInfo; valueType := GaugeValue; value := 1;
                labelValues := ["default"; "web"; "LoadBalancer"; "false"] |};
             {| desc := svcInfo; valueType := GaugeValue; value := 1;
                labelValues := ["default"; "db"; "ClusterIP"; "true"] |} ]).
  - vm_compute. reflexivity.
  - apply elem_of_cons. right. apply elem_of_cons. by left.
  - simpl. discriminate.
Defined.

(** X10: the metric and the worker agree: a service the collector labels
    internal=true is dropped by the pop callback without any call to the
    control plane, and a service labelled internal=false gets exactly one
    delete, conditional on its UID. *)
Theorem metric_label_matches_worker_decision {S : Type} (client : Client S)
    (provider : string) (c : svcCollector) (ch : list Metric) (svc : Service)
    (st : S * list DeleteCall) :
  ∃ m, collectSvc provider c ch svc = Some (ch ++ [m])
       ∧ ((labelValues m !! 3 = Some "true"
           ∧ process (recording client) provider svc st = (st, None))
          ∨ (labelValues m !! 3 = Some "false"
             ∧ (process (recording client) provider svc st).1.2
               = st.2 ++ [deleteOf svc])).
Proof.
  eexists. split; [apply collectSvc_sends|]. simpl. unfold process.
  destruct (isInternal provider svc); simpl.
  - by left.
  - right. split; [done|].
    by destruct (ServicesDelete client st.1 _ _ _) as [s' [err|]].
Qed.

(** ** The two versions of the program *)

(** X11: the classifier agrees with the one of the earlier version of the
    program on every service exactly when the provider flag is aws, its
    default; under any other provider the two differ on some service. *)
Theorem isInternal_is_legacy_iff_aws (provider : string) :
  (∀ svc, isInternal provider svc = Legacy.isInternal svc) ↔ provider = "aws".
Proof.
  split.
  - intros H. specialize (H awsInternalLb). unfold isInternal in H.
    destruct (String.eqb provider "aws") eqn:Hp.
    + by apply String.eqb_eq.
    + vm_compute in H. discriminate.
  - intros -> svc. reflexivity.
Qed.

(** X12: with provider aws and termination mode off, [main] panics exactly
    when the earlier version panics, with the same message, and otherwise
    goes through the steps of the earlier version after one more log line,
    the one that names the provider, and ends the same way. *)
Theorem main_aws_is_legacy {Config Clientset : Type} (flags : Flags)
    (env : Env Config Clientset) :
  provider flags = "aws" →
  terminate flags = false →
  main flags env =
    match Legacy.main flags env with
    | (steps, Panic msg) => (steps, Panic msg)
    | (steps, LogFatal msg) =>
        (LogPrintf ("Using AWS provider" +:+ newline) :: steps, LogFatal msg)
    end.
Proof.
  intros Hp Ht. unfold main, Legacy.main. rewrite Hp, Ht. simpl.
  destruct (if String.eqb (kubeconfig flags) "" then _ else _)
    as [config|err]; [|done].
  by destruct (NewForConfig env config) as [clientset|err].
Qed.

Lemma main_aws_is_legacy_witness :
  main awsFlags inCluster =
    (LogPrintf ("Using AWS provider" +:+ newline)
       :: (Legacy.main awsFlags inCluster).1,
     LogFatal "listen tcp :8080: bind: address already in use").
Proof.
  rewrite (main_aws_is_legacy awsFlags inCluster); reflexivity.
Defined.

(** ** Startup, beyond the provider check *)

(** X13: [main] reaches the metrics server exactly when the configuration
    loads, the client set is built and the provider is aws or gcp; it then
    serves on the listen address and ends with the fatal log of the error
    the server returns. *)
Theorem main_serves_iff {Config Clientset : Type} (flags : Flags)
    (env : Env Config Clientset) :
  ((∃ addr, Serve addr ∈ (main flags env).1) ↔
     (∃ config clientset,
        (if String.eqb (kubeconfig flags) "" then InClusterConfig env
         else BuildConfigFromFlags env "" (kubeconfig flags)) = inl config
        ∧ NewForConfig env config = inl clientset)
     ∧ (provider flags = "aws" ∨ provider flags = "gcp"))
  ∧ (∀ addr, Serve addr ∈ (main flags env).1 →
       addr = listenAddr flags
       ∧ (main flags env).2
         = LogFatal (Error (ListenAndServe env (listenAddr flags)))).
Proof.
  unfold main.
  destruct (if String.eqb (kubeconfig flags) "" then _ else _)
    as [config|err]; simpl.
  2:{ split; [split|].
      - intros [addr Hin]. by apply elem_of_nil in Hin.
      - intros [(? & ? & [=] & _) _].
      - intros addr Hin. by apply elem_of_nil in Hin. }
  destruct (NewForConfig env config) as [clientset|err] eqn:Hnew; simpl.
  2:{ split; [split|].
      - intros [addr Hin]. by apply elem_of_nil in Hin.
      - intros [(? & ? & [= <-] & Hcs) _]. congruence.
      - intros addr Hin. by apply elem_of_nil in Hin. }
  assert (∀ addr (t1 : list Step), Serve addr ∈ t1 →
            t1 = [] ∨ t1 = [LogPrintf ("Termination mode engaged" +:+ newline);
                            GoTerminator] → False) as Hno.
  { intros addr t1 Hin [->| ->].
    - by apply elem_of_nil in Hin.
    - rewrite !elem_of_cons, elem_of_nil in Hin. intuition (try discriminate; try congruence). }
  assert ((if terminate flags
           then [LogPrintf ("Termination mode engaged" +:+ newline); GoTerminator]
           else []) = []
          ∨ (if terminate flags
             then [LogPrintf ("Termination mode engaged" +:+ newline); GoTerminator]
             else []) = [LogPrintf ("Termination mode engaged" +:+ newline);
                         GoTerminator]) as Ht1.
  { destruct (terminate flags); auto. }
  destruct (String.eqb (provider flags) "aws") eqn:Haws;
    [|destruct (String.eqb (provider flags) "gcp") eqn:Hgcp]; simpl.
  - apply String.eqb_eq in Haws. split; [split|].
    + intros _. split; [by eauto | by left].
    + intros _. exists (listenAddr flags). rewrite elem_of_app.
      right. rewrite !elem_of_cons. tauto.
    + intros addr [Hin|Hin]%elem_of_app; [by destruct (Hno _ _ Hin Ht1)|].
      rewrite !elem_of_cons, elem_of_nil in Hin. intuition (try discriminate; try congruence).
  - apply String.eqb_eq in Hgcp. split; [split|].
    + intros _. split; [by eauto | by right].
    + intros _. exists (listenAddr flags). rewrite elem_of_app.
      right. rewrite !elem_of_cons. tauto.
    + intros addr [Hin|Hin]%elem_of_app; [by destruct (Hno _ _ Hin Ht1)|].
      rewrite !elem_of_cons, elem_of_nil in Hin. intuition (try discriminate; try congruence).
  - apply String.eqb_neq in Haws, Hgcp. split; [split|].
    + intros [addr Hin]. by destruct (Hno _ _ Hin Ht1).
    + intros [_ [?|?]]; congruence.
    + intros addr Hin. by destruct (Hno _ _ Hin Ht1).
Qed.

(** X14: when the configuration cannot be loaded or the client set cannot be
    built, [main] panics with the text of that error before any other step:
    nothing is logged and the worker is not started, whatever the provider
    and the termination flag are. *)
Theorem main_configuration_error_panics {Config Clientset : Type}
    (flags : Flags) (env : Env Config Clientset) (err : error) :
  (if String.eqb (kubeconfig flags) "" then InClusterConfig env
   else BuildConfigFromFlags env "" (kubeconfig flags)) = inr err
  ∨ (∃ config,
       (if String.eqb (kubeconfig flags) "" then InClusterConfig env
        else BuildConfigFromFlags env "" (kubeconfig flags)) = inl config
       ∧ NewForConfig env config = inr err) →
  main flags env = ([], Panic (Error err)).
Proof.
  unfold main. intros [Hcfg|(config & Hcfg & Hnew)]; rewrite Hcfg; [done|].
  by rewrite Hnew.
Qed.

Lemma main_configuration_error_panics_witness :
  main sampleFlags outOfCluster
  = ([], Panic "unable to load in-cluster configuration").
Proof.
  apply (main_configuration_error_panics sampleFlags outOfCluster
           (ErrorString "unable to load in-cluster configuration")).
  left. reflexivity.
Defined.

(** X15: the worker goroutine is started exactly when the termination flag
    is set and the configuration loads and the client set is built; the
    provider plays no part in it, so an unknown provider does not prevent
    the start. *)
Theorem main_starts_terminator_iff {Config Clientset : Type} (flags : Flags)
    (env : Env Config Clientset) :
  GoTerminator ∈ (main flags env).1 ↔
    terminate flags = true
    ∧ ∃ config clientset,
        (if String.eqb (kubeconfig flags) "" then InClusterConfig env
         else BuildConfigFromFlags env "" (kubeconfig flags)) = inl config
        ∧ NewForConfig env config = inl clientset.
Proof.
  unfold main.
  destruct (if String.eqb (kubeconfig flags) "" then _ else _)
    as [config|err]; simpl.
  2:{ split.
      - by intros ?%elem_of_nil.
      - intros [_ (? & ? & [=] & _)]. }
  destruct (NewForConfig env config) as [clientset|err] eqn:Hnew; simpl.
  2:{ split.
      - by intros ?%elem_of_nil.
      - intros [_ (? & ? & [= <-] & Hcs)]. congruence. }
  destruct (terminate flags); simpl.
  - split; [by eauto|]. intros _.
    destruct (String.eqb (provider flags) "aws");
      [|destruct (String.eqb (provider flags) "gcp")]; simpl;
      rewrite !elem_of_cons; tauto.
  - split; [|by intros [[=] _]].
    destruct (String.eqb (provider flags) "aws");
      [|destruct (String.eqb (provider flags) "gcp")]; simpl;
      rewrite ?elem_of_cons, elem_of_nil; intuition (try discriminate; try congruence).
Qed.

(** X16: the kubeconfig flag selects the loader: when it is empty only the
    in-cluster configuration is consulted, and otherwise only the kubeconfig
    file, with an empty master URL; the loader that is not selected has no
    influence on [main]. *)
Theorem main_selects_configuration_loader {Config Clientset : Type}
    (flags : Flags) (env : Env Config Clientset) :
  (kubeconfig flags = "" →
     ∀ build, main flags {| InClusterConfig := InClusterConfig env;
                            BuildConfigFromFlags := build;
                            NewForConfig := NewForConfig env;
                            ListenAndServe := ListenAndServe env |}
              = main flags env)
  ∧ (kubeconfig flags ≠ "" →
       ∀ inCluster' build,
         build "" (kubeconfig flags)
           = BuildConfigFromFlags env "" (kubeconfig flags) →
         main flags {| InClusterConfig := inCluster';
                       BuildConfigFromFlags := build;
                       NewForConfig := NewForConfig env;
                       ListenAndServe := ListenAndServe env |}
         = main flags env).
Proof.
  split.
  - intros Hk build. unfold main. simpl. by rewrite Hk.
  - intros Hk%String.eqb_neq inc build Hb. unfold main. simpl.
    by rewrite Hk, Hb.
Qed.

Lemma main_selects_configuration_loader_witness :
  main gcpFlags outOfCluster
  = main gcpFlags {| InClusterConfig := inl tt;
                     BuildConfigFromFlags := λ _ _, inl tt;
                     NewForConfig := NewForConfig outOfCluster;
                     ListenAndServe := ListenAndServe outOfCluster |}.
Proof.
  symmetry.
  apply (main_selects_configuration_loader gcpFlags outOfCluster); [|reflexivity].
  vm_compute. discriminate.
Defined.

(** ** Classifier and annotations *)

(** X17: the classification reads one annotation only, the marker of the
    provider in force: setting any other annotation, the marker of the other
    provider included, leaves it as it was. *)
Theorem isInternal_ignores_other_annotations (provider k v : string)
    (svc : Service) :
  k ≠ (if String.eqb provider "aws" then awsLbInternal else gcpLbInternal) →
  isInternal provider (withAnnotation k v svc) = isInternal provider svc.
Proof.
  intros Hk. unfold isInternal, index. simpl.
  destruct (String.eqb provider "aws"); by rewrite lookup_insert_ne.
Qed.

Lemma isInternal_ignores_other_annotations_witness :
  isInternal "gcp" (withAnnotation awsLbInternal awsLbInternalValue publicLb)
  = false.
Proof.
  rewrite (isInternal_ignores_other_annotations "gcp" awsLbInternal
             awsLbInternalValue publicLb).
  - reflexivity.
  - vm_compute. discriminate.
Defined.
